(** * gradio-erste-schritte: the backend functions and their bindings

    A shallow embedding of the four tutorial scripts

      - [hello_gradio.py]               ([greet], bound with [gr.Interface])
      - [hello_gradio_blocks.py]        ([greet], bound with [Button.click])
      - [gradio_components.py]          ([compute], bound with [gr.Interface])
      - [gradio_components_blocks.py]   ([compute], bound with [Button.click])

    Conventions of the embedding.

      - A Python [str] is represented by its UTF-8 encoding, a Rocq
        [string] of bytes, so that the literals below read exactly like
        the literals of the scripts.  Concatenation of [str] values is
        concatenation of their encodings; the length in code points is
        [py_len_str].
      - A Python [int] is unbounded, hence [Z].
      - The values the form fields exchange with the functions are [None],
        [str] and [int] ([prim]); a function returns one of these or a
        tuple of them ([pyval]).  Other types (floating point numbers,
        containers) are left out, so a statement about "every argument"
        is about these three types.
      - Python calls run in the monad [Py]: they may raise [TypeError], and
        they thread the module namespace ([Globals]), which is the only
        place where a function of these scripts could keep state between
        two invocations. *)

From Stdlib Require Import ZArith List String Ascii Bool Lia.
From Stdlib Require Import Decimal DecimalString.
Import ListNotations.

Open Scope string_scope.
Open Scope Z_scope.

(* ================================================================== *)
(** ** Python values *)

Inductive prim : Type :=
| PNone
| PStr (s : string)
| PInt (z : Z).

Inductive pyval : Type :=
| Prim (p : prim)
| Tuple (items : list prim).

Definition is_tuple (v : pyval) : bool :=
  match v with
  | Tuple _ => true
  | Prim _ => false
  end.

(** A byte of a UTF-8 text opens a code point unless it has the form
    [10xxxxxx]. *)
Definition utf8_lead (c : ascii) : bool :=
  negb (Z.land (Z.of_nat (nat_of_ascii c)) 192 =? 128).

(** [len(s)] for a [str]: the number of code points. *)
Fixpoint py_len_str (s : string) : nat :=
  match s with
  | EmptyString => 0%nat
  | String c rest =>
      if utf8_lead c then S (py_len_str rest) else py_len_str rest
  end.

(** [s * n] for a [str] and an [int]: [n] copies, none when [n <= 0]. *)
Fixpoint str_repeat (s : string) (n : nat) : string :=
  match n with
  | O => ""
  | S k => s ++ str_repeat s k
  end.

(** [format(x, "")], which is what a replacement field [{x}] of an
    f-string evaluates to: the text itself, "None", the decimal digits of
    an integer.  CPython refuses to convert an integer of more digits than
    the interpreter's limit (4300 unless configured otherwise) and raises
    [ValueError]; this limit is not modelled, so what is proved of a
    formatted argument that returns is stated for texts and [None]. *)
Definition py_format (x : prim) : string :=
  match x with
  | PNone => "None"
  | PStr s => s
  | PInt z => NilZero.string_of_int (Z.to_int z)
  end.

(* ================================================================== *)
(** ** The monad of Python calls *)

Inductive exn : Type :=
| TypeError
| ValueError.

Inductive result (A : Type) : Type :=
| Ok (a : A)
| Raised (e : exn).

Arguments Ok {A} a.
Arguments Raised {A} e.

(** The module namespace: the names bound at the top level of a script. *)
Definition Globals : Type := list (string * prim).

Definition Py (A : Type) : Type := Globals -> result A * Globals.

Definition ret {A} (a : A) : Py A := fun g => (Ok a, g).

Definition raise {A} (e : exn) : Py A := fun g => (Raised e, g).

Definition bind {A B} (m : Py A) (k : A -> Py B) : Py B :=
  fun g =>
    match m g with
    | (Ok a, g') => k a g'
    | (Raised e, g') => (Raised e, g')
    end.

Notation "x <- m ;; k" := (bind m (fun x => k))
  (at level 61, m at next level, right associativity).

(** Two invocations in a row, the second one in the namespace the first one
    leaves behind. *)
Definition twice {A} (m : Py A) : Py (A * A) :=
  a <- m ;; b <- m ;; ret (a, b).

(** A call is pure when its outcome (the value or the exception) is the
    same in every module namespace and it leaves the namespace as it found
    it. *)
Definition pure_call {A} (m : Py A) : Prop :=
  exists r : result A, forall g : Globals, m g = (r, g).

(** What an observer of repeated invocations sees of a call without hidden
    state: the outcome does not depend on the namespace the call starts
    in, the call leaves the namespace unchanged, and a second invocation
    after the first has the outcome of the first. *)
Definition repeatable {A} (m : Py A) : Prop :=
  (forall g g' : Globals, fst (m g) = fst (m g')) /\
  (forall g : Globals, snd (m g) = g) /\
  (forall g : Globals, fst (m (snd (m g))) = fst (m g)).

(** [a * b]. *)
Definition py_mul (a b : prim) : Py prim :=
  match a, b with
  | PInt x, PInt y => ret (PInt (x * y))
  | PStr s, PInt n => ret (PStr (str_repeat s (Z.to_nat n)))
  | PInt n, PStr s => ret (PStr (str_repeat s (Z.to_nat n)))
  | _, _ => raise TypeError
  end.

(** [len(v)]. *)
Definition py_len (v : pyval) : Py nat :=
  match v with
  | Tuple items => ret (List.length items)
  | Prim (PStr s) => ret (py_len_str s)
  | Prim _ => raise TypeError
  end.

(** A function object: its name, its positional parameters and its body.
    Calling it with the wrong number of arguments raises [TypeError]. *)
Record Function : Type := {
  fn_name : string;
  fn_params : list string;
  fn_body : list prim -> Py pyval
}.

Definition arity (f : Function) : nat := List.length (fn_params f).

Definition call (f : Function) (args : list prim) : Py pyval :=
  if Nat.eqb (List.length args) (arity f) then fn_body f args
  else raise TypeError.

(* ================================================================== *)
(** ** Form fields and bindings *)

(** The components the scripts construct, with the keyword arguments they
    pass; an argument a script may leave out is an [option]. *)
Inductive Component : Type :=
| Textbox (label : string) (interactive : option bool)
| Dropdown (choices : list string) (label : string)
| Slider (minimum maximum : Z) (value : option Z) (step : Z) (label : string)
| Number (label : string) (interactive : option bool).

Definition option_eqb {A} (eqb : A -> A -> bool) (a b : option A) : bool :=
  match a, b with
  | Some x, Some y => eqb x y
  | None, None => true
  | _, _ => false
  end.

Fixpoint strings_eqb (a b : list string) : bool :=
  match a, b with
  | [], [] => true
  | x :: a', y :: b' => String.eqb x y && strings_eqb a' b'
  | _, _ => false
  end.

(** Two components are told apart by their kind and their arguments; no
    script constructs the same component twice. *)
Definition Component_eqb (a b : Component) : bool :=
  match a, b with
  | Textbox l i, Textbox l' i' => String.eqb l l' && option_eqb Bool.eqb i i'
  | Dropdown cs l, Dropdown cs' l' => strings_eqb cs cs' && String.eqb l l'
  | Slider lo hi v st l, Slider lo' hi' v' st' l' =>
      (lo =? lo') && (hi =? hi') && option_eqb Z.eqb v v' && (st =? st')
      && String.eqb l l'
  | Number l i, Number l' i' => String.eqb l l' && option_eqb Bool.eqb i i'
  | _, _ => false
  end.

(** [inputs=] and [outputs=] take one component or a list of components. *)
Inductive Fields : Type :=
| One (c : Component)
| Many (cs : list Component).

Definition fields_list (f : Fields) : list Component :=
  match f with
  | One c => [c]
  | Many cs => cs
  end.

(** The event that runs the function: the submit button [gr.Interface]
    generates, or the click of a button the script creates. *)
Inductive Trigger : Type :=
| Submit
| Click (button : string).

Record Binding : Type := {
  fn : Function;
  inputs : Fields;
  outputs : Fields;
  trigger : Trigger
}.

Definition input_fields (b : Binding) : list Component := fields_list (inputs b).
Definition output_fields (b : Binding) : list Component := fields_list (outputs b).

Definition label (c : Component) : string :=
  match c with
  | Textbox l _ => l
  | Dropdown _ l => l
  | Slider _ _ _ _ l => l
  | Number l _ => l
  end.

Inductive Kind : Type := KTextbox | KDropdown | KSlider | KNumber.

Definition kind (c : Component) : Kind :=
  match c with
  | Textbox _ _ => KTextbox
  | Dropdown _ _ => KDropdown
  | Slider _ _ _ _ _ => KSlider
  | Number _ _ => KNumber
  end.

(** The current value of every component of the page. *)
Definition UI : Type := Component -> prim.

Definition write (ui : UI) (c : Component) (v : prim) : UI :=
  fun c' => if Component_eqb c' c then v else ui c'.

Fixpoint write_all (ui : UI) (cs : list Component) (vs : list prim) : UI :=
  match cs, vs with
  | c :: cs', v :: vs' => write_all (write ui c v) cs' vs'
  | _, _ => ui
  end.

(** Modelled from the spec: the values a field can hold, which the
    rendering framework enforces and the scripts only declare ("field(kind,
    label, constraints, default)").  A text box holds a text, a dropdown
    nothing or one of its choices, a slider an integer of its range on the
    grid of its step, a number field nothing or a number. *)
Definition admits (c : Component) (v : prim) : bool :=
  match c, v with
  | Textbox _ _, PStr _ => true
  | Dropdown choices _, PNone => true
  | Dropdown choices _, PStr s => existsb (String.eqb s) choices
  | Slider lo hi _ step _, PInt z =>
      (lo <=? z) && (z <=? hi) && ((z - lo) mod step =? 0)
  | Number _ _, PNone => true
  | Number _ _, PInt _ => true
  | _, _ => false
  end.

(** Modelled from the spec: the value a field holds before the user touches
    it, "an optional default value": the [value=] argument when the script
    gives one; otherwise the empty text, no selection, the minimum of the
    slider, no number. *)
Definition default_value (c : Component) : prim :=
  match c with
  | Textbox _ _ => PStr ""
  | Dropdown _ _ => PNone
  | Slider lo _ (Some v) _ _ => PInt v
  | Slider lo _ None _ _ => PInt lo
  | Number _ _ => PNone
  end.

Definition defaults (b : Binding) : list prim := map default_value (input_fields b).

(** Modelled from the spec: the values a result stands for when it is
    distributed over the output fields: the elements of a returned tuple,
    in order; a result that is no tuple is one value. *)
Definition returned_values (r : pyval) : list prim :=
  match r with
  | Tuple items => items
  | Prim p => [p]
  end.

(** Modelled from the spec: the event dispatch of the rendering framework,
    which is no code of the scripts.  "Invoking the declared UI event reads
    the current value of each input field (in order), calls the backend
    function with those values as positional arguments, and writes each
    element of the returned tuple (in order) to the corresponding output
    field"; a result with another number of values than there are output
    fields is the framework's error.  The framework validates the values
    of the input fields before it calls the function; [fire] does not, so
    it stands for the event on the pages whose fields hold values they
    admit ([admits]). *)
Definition fire (b : Binding) (ui : UI) : Py UI :=
  r <- call (fn b) (map ui (input_fields b)) ;;
  let vals := returned_values r in
  if Nat.eqb (List.length vals) (List.length (output_fields b))
  then ret (write_all ui (output_fields b) vals)
  else raise ValueError.

(* ================================================================== *)
(** ** The scripts *)

(** [hello_gradio.py] *)
Module HelloGradio.

(** [def greet(name): return f"Hallo, {name}!! 🙂"] *)
Definition greet (name : prim) : Py pyval :=
  ret (Prim (PStr ("Hallo, " ++ py_format name ++ "!! 🙂"))).

Definition greet_def : Function := {|
  fn_name := "greet";
  fn_params := ["name"];
  fn_body := fun args =>
    match args with
    | [name] => greet name
    | _ => raise TypeError
    end
|}.

(** [gr.Interface(fn=greet, inputs=gr.Textbox(...), outputs=gr.Textbox(...))] *)
Definition interface : Binding := {|
  fn := greet_def;
  inputs := One (Textbox "Name eingeben" None);
  outputs := One (Textbox "Begrüßung" None);
  trigger := Submit
|}.

End HelloGradio.

(** [hello_gradio_blocks.py] *)
Module HelloGradioBlocks.

(** [def greet(name): return f"Hallo, {name}!! 🙂"] *)
Definition greet (name : prim) : Py pyval :=
  ret (Prim (PStr ("Hallo, " ++ py_format name ++ "!! 🙂"))).

Definition greet_def : Function := {|
  fn_name := "greet";
  fn_params := ["name"];
  fn_body := fun args =>
    match args with
    | [name] => greet name
    | _ => raise TypeError
    end
|}.

Definition name_input : Component := Textbox "Name eingeben" None.
Definition output_box : Component := Textbox "Begrüßung" (Some false).

(** [greet_button.click(greet, inputs=name_input, outputs=output_box)] *)
Definition greet_button_click : Binding := {|
  fn := greet_def;
  inputs := One name_input;
  outputs := One output_box;
  trigger := Click "Begrüßen"
|}.

End HelloGradioBlocks.

(** [gradio_components.py] *)
Module GradioComponents.

(** [def compute(name: str, stimmung: str, intensitaet: int)] *)
Definition compute (name stimmung intensitaet : prim) : Py pyval :=
  let message := PStr (py_format name ++ " fühlt sich " ++ py_format stimmung) in
  score <- py_mul intensitaet (PInt 10) ;;
  ret (Tuple [message; score]).

Definition compute_def : Function := {|
  fn_name := "compute";
  fn_params := ["name"; "stimmung"; "intensitaet"];
  fn_body := fun args =>
    match args with
    | [name; stimmung; intensitaet] => compute name stimmung intensitaet
    | _ => raise TypeError
    end
|}.

(** The components of the [inputs=[...]] and [outputs=[...]] lists, which
    the script constructs in place. *)
Definition inputs_0 : Component := Textbox "Name eingeben" None.
Definition inputs_1 : Component :=
  Dropdown ["glücklich"; "traurig"; "aufgeregt"] "Stimmung auswählen".
Definition inputs_2 : Component :=
  Slider 1 10 None 1 "Intensität der Stimmung".
Definition outputs_0 : Component := Textbox "Nachricht" None.
Definition outputs_1 : Component := Number "Stimmungswert" None.

(** [gr.Interface(fn=compute, inputs=[...], outputs=[...])] *)
Definition interface : Binding := {|
  fn := compute_def;
  inputs := Many [inputs_0; inputs_1; inputs_2];
  outputs := Many [outputs_0; outputs_1];
  trigger := Submit
|}.

End GradioComponents.

(** [gradio_components_blocks.py] *)
Module GradioComponentsBlocks.

(** [def compute(name: str, stimmung: str, intensitaet: int)] *)
Definition compute (name stimmung intensitaet : prim) : Py pyval :=
  let message := PStr (py_format name ++ " fühlt sich " ++ py_format stimmung) in
  score <- py_mul intensitaet (PInt 10) ;;
  ret (Tuple [message; score]).

Definition compute_def : Function := {|
  fn_name := "compute";
  fn_params := ["name"; "stimmung"; "intensitaet"];
  fn_body := fun args =>
    match args with
    | [name; stimmung; intensitaet] => compute name stimmung intensitaet
    | _ => raise TypeError
    end
|}.

Definition name_input : Component := Textbox "Name eingeben" None.
Definition mood_input : Component :=
  Dropdown ["glücklich"; "traurig"; "aufgeregt"] "Stimmung auswählen".
Definition intensity_input : Component :=
  Slider 1 10 (Some 5) 1 "Intensität der Stimmung".
Definition message_output : Component := Textbox "Nachricht" (Some false).
Definition score_output : Component := Number "Stimmungswert" (Some false).

(** [compute_button.click(compute, inputs=[...], outputs=[...])] *)
Definition compute_button_click : Binding := {|
  fn := compute_def;
  inputs := Many [name_input; mood_input; intensity_input];
  outputs := Many [message_output; score_output];
  trigger := Click "Berechnen"
|}.

End GradioComponentsBlocks.

(** Every binding the repository declares, and every function it binds. *)
Definition declared_bindings : list Binding :=
  [ HelloGradio.interface;
    HelloGradioBlocks.greet_button_click;
    GradioComponents.interface;
    GradioComponentsBlocks.compute_button_click ].

Definition backend_functions : list Function := map fn declared_bindings.

(** The result of every backend function is a tuple, on every argument
    list on which the function returns. *)
Definition every_result_is_tuple : Prop :=
  forall (f : Function) (args : list prim) (g g' : Globals) (r : pyval),
    In f backend_functions ->
    call f args g = (Ok r, g') ->
    is_tuple r = true.

(** [len(input_fields) == arity(function)] and
    [len(output_fields) == len(function( *defaults))]. *)
Definition arity_property (b : Binding) : Prop :=
  List.length (input_fields b) = arity (fn b) /\
  forall g : Globals,
    (r <- call (fn b) (defaults b) ;; py_len r) g
    = (Ok (List.length (output_fields b)), g).

(** The same with the number of returned values in place of [len]: a tuple
    counts for its elements, any other result for one value. *)
Definition arity_property_values (b : Binding) : Prop :=
  List.length (input_fields b) = arity (fn b) /\
  forall g : Globals,
    exists r : pyval,
      call (fn b) (defaults b) g = (Ok r, g) /\
      List.length (returned_values r) = List.length (output_fields b).

(** The data flow of one event, read off the positions of the fields: the
    texts and numbers in the output fields, as a function of those in the
    input fields. *)
Definition flows_by_position (b : Binding) (ui ui' : UI) : Prop :=
  match input_fields b, output_fields b with
  | [name_field], [greeting_field] =>
      fn_params (fn b) = ["name"] /\
      label name_field = "Name eingeben" /\
      label greeting_field = "Begrüßung" /\
      ui' greeting_field = PStr ("Hallo, " ++ py_format (ui name_field) ++ "!! 🙂")
  | [name_field; mood_field; intensity_field], [message_field; score_field] =>
      fn_params (fn b) = ["name"; "stimmung"; "intensitaet"] /\
      map kind [name_field; mood_field; intensity_field]
      = [KTextbox; KDropdown; KSlider] /\
      map kind [message_field; score_field] = [KTextbox; KNumber] /\
      ui' message_field
      = PStr (py_format (ui name_field) ++ " fühlt sich "
              ++ py_format (ui mood_field)) /\
      exists i : Z, ui intensity_field = PInt i /\ ui' score_field = PInt (i * 10)
  | _, _ => False
  end.

(** A page on which Anna is glücklich with intensity 5. *)
Definition anna_page : UI :=
  fun c =>
    match c with
    | Textbox _ _ => PStr "Anna"
    | Dropdown _ _ => PStr "glücklich"
    | Slider _ _ _ _ _ => PInt 5
    | Number _ _ => PNone
    end.

(** The [choices=] of a dropdown; the other components offer none. *)
Definition dropdown_choices (c : Component) : list string :=
  match c with
  | Dropdown choices _ => choices
  | _ => []
  end.

(** The last byte of a text, if it has one. *)
Fixpoint last_byte (s : string) : option ascii :=
  match s with
  | EmptyString => None
  | String c EmptyString => Some c
  | String _ rest => last_byte rest
  end.

(** Each demo comes in two scripts: the [gr.Interface] one and the
    [gr.Blocks] one. *)
Definition variant_pairs : list (Binding * Binding) :=
  [ (HelloGradio.interface, HelloGradioBlocks.greet_button_click);
    (GradioComponents.interface, GradioComponentsBlocks.compute_button_click) ].

(** What two events show of each other when they agree: the same exception,
    or the same values in the output fields, position by position. *)
Definition same_outcome (bi bb : Binding) (oi ob : result UI * Globals) : Prop :=
  match oi, ob with
  | (Ok ui, _), (Ok ub, _) => map ui (output_fields bi) = map ub (output_fields bb)
  | (Raised e, _), (Raised e', _) => e = e'
  | _, _ => False
  end.

(* ================================================================== *)
(** ** Equality of components *)

Lemma option_eqb_eq {A} (eqb : A -> A -> bool) :
  (forall x y, eqb x y = true <-> x = y) ->
  forall a b, option_eqb eqb a b = true <-> a = b.
Proof.
  intros H [x|] [y|]; simpl; try (split; congruence).
  rewrite H. split; congruence.
Qed.

Lemma strings_eqb_eq : forall a b, strings_eqb a b = true <-> a = b.
Proof.
  induction a as [|x a IH]; intros [|y b]; simpl; try (split; congruence).
  rewrite andb_true_iff, String.eqb_eq, IH. split.
  - intros [-> ->]; reflexivity.
  - intros E; injection E; auto.
Qed.

Lemma bool_eqb_eq : forall x y, Bool.eqb x y = true <-> x = y.
Proof. intros x y. split; [apply eqb_prop | intros ->; apply eqb_reflx]. Qed.

Lemma Component_eqb_eq : forall a b, Component_eqb a b = true <-> a = b.
Proof.
  intros a b; destruct a, b; simpl; try (split; congruence);
    rewrite ?andb_true_iff, ?String.eqb_eq, ?Z.eqb_eq, ?strings_eqb_eq,
      ?(option_eqb_eq Bool.eqb bool_eqb_eq), ?(option_eqb_eq Z.eqb Z.eqb_eq);
    (split; [ intuition congruence | intros E; injection E; intuition ]).
Qed.

Lemma Component_eqb_refl : forall c, Component_eqb c c = true.
Proof. intros c. apply Component_eqb_eq. reflexivity. Qed.

Lemma Component_eqb_neq : forall a b, a <> b -> Component_eqb a b = false.
Proof.
  intros a b N. destruct (Component_eqb a b) eqn:E; [|reflexivity].
  apply Component_eqb_eq in E. contradiction.
Qed.

(* ================================================================== *)
(** ** Writing results to the page *)

Lemma write_same : forall ui c v, write ui c v c = v.
Proof. intros. unfold write. rewrite Component_eqb_refl. reflexivity. Qed.

Lemma write_other : forall ui c v c', c' <> c -> write ui c v c' = ui c'.
Proof. intros. unfold write. rewrite Component_eqb_neq; auto. Qed.

Lemma write_all_outside : forall cs vs ui c,
  ~ In c cs -> write_all ui cs vs c = ui c.
Proof.
  induction cs as [|c0 cs IH]; intros vs ui c N; simpl; [reflexivity|].
  destruct vs as [|v vs]; [reflexivity|].
  rewrite IH by (intros H; apply N; right; exact H).
  apply write_other. intros ->. apply N. left. reflexivity.
Qed.

(** With pairwise distinct fields, the i-th field receives the i-th value. *)
Lemma write_all_nth : forall cs vs ui i c v,
  NoDup cs ->
  nth_error cs i = Some c ->
  nth_error vs i = Some v ->
  write_all ui cs vs c = v.
Proof.
  induction cs as [|c0 cs IH]; intros vs ui i c v ND Hc Hv.
  - destruct i; discriminate.
  - destruct vs as [|v0 vs]; [destruct i; discriminate|].
    inversion ND as [|? ? Hnot ND']; subst.
    destruct i as [|i]; simpl in *.
    + injection Hc as <-. injection Hv as <-.
      rewrite write_all_outside by assumption. apply write_same.
    + eapply IH; eauto.
Qed.

(* ================================================================== *)
(** ** The backend functions on their inputs *)

Lemma greet_str : forall (name : string) (g : Globals),
  HelloGradio.greet (PStr name) g
  = (Ok (Prim (PStr ("Hallo, " ++ name ++ "!! 🙂"))), g).
Proof. reflexivity. Qed.

Lemma greet_blocks_str : forall (name : string) (g : Globals),
  HelloGradioBlocks.greet (PStr name) g
  = (Ok (Prim (PStr ("Hallo, " ++ name ++ "!! 🙂"))), g).
Proof. reflexivity. Qed.

Lemma compute_typed : forall (name stimmung : string) (intensitaet : Z) (g : Globals),
  GradioComponents.compute (PStr name) (PStr stimmung) (PInt intensitaet) g
  = (Ok (Tuple [PStr (name ++ " fühlt sich " ++ stimmung);
                PInt (intensitaet * 10)]), g).
Proof. reflexivity. Qed.

Lemma compute_blocks_typed : forall (name stimmung : string) (intensitaet : Z) (g : Globals),
  GradioComponentsBlocks.compute (PStr name) (PStr stimmung) (PInt intensitaet) g
  = (Ok (Tuple [PStr (name ++ " fühlt sich " ++ stimmung);
                PInt (intensitaet * 10)]), g).
Proof. reflexivity. Qed.

(** C1: the mood function on ("Anna", "glücklich", 5) returns the pair
    ("Anna fühlt sich glücklich", 50), in the Interface variant and in the
    Blocks variant, whatever the module namespace holds. *)
Theorem compute_anna : forall g : Globals,
  GradioComponents.compute (PStr "Anna") (PStr "glücklich") (PInt 5) g
  = (Ok (Tuple [PStr "Anna fühlt sich glücklich"; PInt 50]), g)
  /\
  GradioComponentsBlocks.compute (PStr "Anna") (PStr "glücklich") (PInt 5) g
  = (Ok (Tuple [PStr "Anna fühlt sich glücklich"; PInt 50]), g).
Proof. intros g. split; reflexivity. Qed.

(** C2: the greeting function on "World" returns exactly
    "Hallo, World!! 🙂", in the Interface variant and in the Blocks
    variant. *)
Theorem greet_world : forall g : Globals,
  HelloGradio.greet (PStr "World") g
  = (Ok (Prim (PStr "Hallo, World!! 🙂")), g)
  /\
  HelloGradioBlocks.greet (PStr "World") g
  = (Ok (Prim (PStr "Hallo, World!! 🙂")), g).
Proof. intros g. split; reflexivity. Qed.

(** C3: for every text [name], every text [stimmung] and every integer
    [intensitaet], compute returns the pair of the concatenation
    [name ++ " fühlt sich " ++ stimmung] and the product
    [intensitaet * 10], and nothing else happens: no exception, and the
    module namespace is left as it was.  The same holds of both variants;
    the greeting function is a concatenation alone. *)
Theorem compute_is_concat_and_product :
  forall (name stimmung : string) (intensitaet : Z) (g : Globals),
    GradioComponents.compute (PStr name) (PStr stimmung) (PInt intensitaet) g
    = (Ok (Tuple [PStr (name ++ " fühlt sich " ++ stimmung);
                  PInt (intensitaet * 10)]), g)
    /\
    GradioComponentsBlocks.compute (PStr name) (PStr stimmung) (PInt intensitaet) g
    = (Ok (Tuple [PStr (name ++ " fühlt sich " ++ stimmung);
                  PInt (intensitaet * 10)]), g)
    /\
    HelloGradio.greet (PStr name) g
    = (Ok (Prim (PStr ("Hallo, " ++ name ++ "!! 🙂"))), g)
    /\
    HelloGradioBlocks.greet (PStr name) g
    = (Ok (Prim (PStr ("Hallo, " ++ name ++ "!! 🙂"))), g).
Proof.
  intros name stimmung intensitaet g.
  rewrite compute_typed, compute_blocks_typed, greet_str, greet_blocks_str.
  repeat split.
Qed.

(** C10: on the empty text the greeting function raises nothing and
    returns exactly "Hallo, !! 🙂", in both variants. *)
Theorem greet_empty : forall g : Globals,
  HelloGradio.greet (PStr "") g = (Ok (Prim (PStr "Hallo, !! 🙂")), g)
  /\
  HelloGradioBlocks.greet (PStr "") g = (Ok (Prim (PStr "Hallo, !! 🙂")), g).
Proof. intros g. split; reflexivity. Qed.

(* ================================================================== *)
(** ** Purity *)

Lemma pure_ret {A} (a : A) : pure_call (ret a).
Proof. exists (Ok a). reflexivity. Qed.

Lemma pure_raise {A} (e : exn) : pure_call (@raise A e).
Proof. exists (Raised e). reflexivity. Qed.

Lemma pure_bind {A B} (m : Py A) (k : A -> Py B) :
  pure_call m -> (forall a, pure_call (k a)) -> pure_call (bind m k).
Proof.
  intros [r Hm] Hk. destruct r as [a|e].
  - destruct (Hk a) as [rb Hb]. exists rb. intros g.
    unfold bind. rewrite Hm. apply Hb.
  - exists (Raised e). intros g. unfold bind. rewrite Hm. reflexivity.
Qed.

Lemma pure_py_mul : forall a b, pure_call (py_mul a b).
Proof.
  intros a b. destruct a, b; simpl; first [apply pure_ret | apply pure_raise].
Qed.

Lemma pure_greet : forall name, pure_call (HelloGradio.greet name).
Proof. intros. apply pure_ret. Qed.

Lemma pure_greet_blocks : forall name, pure_call (HelloGradioBlocks.greet name).
Proof. intros. apply pure_ret. Qed.

Lemma pure_compute : forall name stimmung intensitaet,
  pure_call (GradioComponents.compute name stimmung intensitaet).
Proof.
  intros. unfold GradioComponents.compute.
  apply pure_bind; [apply pure_py_mul | intros; apply pure_ret].
Qed.

Lemma pure_compute_blocks : forall name stimmung intensitaet,
  pure_call (GradioComponentsBlocks.compute name stimmung intensitaet).
Proof.
  intros. unfold GradioComponentsBlocks.compute.
  apply pure_bind; [apply pure_py_mul | intros; apply pure_ret].
Qed.

(** The body of every declared function is pure on every argument list. *)
Lemma pure_call_declared : forall f args,
  In f backend_functions -> pure_call (call f args).
Proof.
  intros f args Hf. unfold call.
  destruct (Nat.eqb (List.length args) (arity f)); [|apply pure_raise].
  simpl in Hf.
  destruct Hf as [<-|[<-|[<-|[<-|[]]]]]; simpl.
  - destruct args as [|a [|? ?]]; first [apply pure_greet | apply pure_raise].
  - destruct args as [|a [|? ?]]; first [apply pure_greet_blocks | apply pure_raise].
  - destruct args as [|a [|b [|c [|? ?]]]];
      first [apply pure_compute | apply pure_raise].
  - destruct args as [|a [|b [|c [|? ?]]]];
      first [apply pure_compute_blocks | apply pure_raise].
Qed.

(** A pure call gives the same outcome in any two namespaces, and two
    invocations in a row give the same outcome twice. *)
Lemma pure_call_repeatable {A} (m : Py A) : pure_call m -> repeatable m.
Proof.
  intros [r H]. repeat split; intros; rewrite !H; reflexivity.
Qed.

Lemma pure_call_twice {A} (m : Py A) :
  pure_call m ->
  forall g, match twice m g with
            | (Ok (a, b), g') => a = b /\ g' = g /\ m g = (Ok a, g)
            | (Raised e, g') => g' = g /\ m g = (Raised e, g)
            end.
Proof.
  intros [r H] g. unfold twice, bind, ret. rewrite H.
  destruct r as [a|e]; [rewrite H|]; auto.
Qed.

(** C5: both backend functions are deterministic and stateless.  For every
    argument the outcome of greet (resp. compute), a value or an
    exception, is the same whatever the module namespace holds, the call
    leaves the namespace unchanged, and a second invocation on the same
    arguments yields the outcome of the first; this holds of both
    variants.  On a text, greet returns the same greeting twice. *)
Theorem backend_functions_repeatable :
  forall name stimmung intensitaet : prim,
    repeatable (HelloGradio.greet name) /\
    repeatable (HelloGradioBlocks.greet name) /\
    repeatable (GradioComponents.compute name stimmung intensitaet) /\
    repeatable (GradioComponentsBlocks.compute name stimmung intensitaet) /\
    (forall g,
       match twice (HelloGradio.greet name) g with
       | (Ok (a, b), g') => a = b /\ g' = g
       | (Raised e, g') =>
           g' = g /\ HelloGradio.greet name g = (Raised e, g)
       end) /\
    (forall g,
       match twice (GradioComponents.compute name stimmung intensitaet) g with
       | (Ok (a, b), g') => a = b /\ g' = g
       | (Raised e, g') =>
           g' = g /\
           GradioComponents.compute name stimmung intensitaet g = (Raised e, g)
       end) /\
    (forall (s : string) (g : Globals),
       exists a : pyval,
         twice (HelloGradio.greet (PStr s)) g = (Ok (a, a), g) /\
         twice (HelloGradioBlocks.greet (PStr s)) g = (Ok (a, a), g)).
Proof.
  intros name stimmung intensitaet.
  split; [apply pure_call_repeatable, pure_greet|].
  split; [apply pure_call_repeatable, pure_greet_blocks|].
  split; [apply pure_call_repeatable, pure_compute|].
  split; [apply pure_call_repeatable, pure_compute_blocks|].
  split; [|split].
  - intros g.
    pose proof (pure_call_twice _ (pure_greet name) g) as H.
    destruct (twice (HelloGradio.greet name) g) as [[[a b]|e] g']; intuition.
  - intros g.
    pose proof (pure_call_twice _ (pure_compute name stimmung intensitaet) g) as H.
    destruct (twice (GradioComponents.compute name stimmung intensitaet) g)
      as [[[a b]|e] g']; intuition.
  - intros s g. eexists. split; reflexivity.
Qed.

(* ================================================================== *)
(** ** The two variants of each demo *)

(** C8: the Interface variant and the Blocks variant bind extensionally
    equal functions: greet of [hello_gradio.py] and greet of
    [hello_gradio_blocks.py] agree on every argument, compute of
    [gradio_components.py] and compute of [gradio_components_blocks.py]
    agree on every argument triple, and so do the function objects on every
    argument list, with the same name and the same parameters. *)
Theorem variants_bind_equal_functions :
  (forall name g,
     HelloGradio.greet name g = HelloGradioBlocks.greet name g) /\
  (forall name stimmung intensitaet g,
     GradioComponents.compute name stimmung intensitaet g
     = GradioComponentsBlocks.compute name stimmung intensitaet g) /\
  (forall args g,
     call (fn HelloGradio.interface) args g
     = call (fn HelloGradioBlocks.greet_button_click) args g) /\
  (forall args g,
     call (fn GradioComponents.interface) args g
     = call (fn GradioComponentsBlocks.compute_button_click) args g) /\
  fn_params (fn HelloGradio.interface)
  = fn_params (fn HelloGradioBlocks.greet_button_click) /\
  fn_params (fn GradioComponents.interface)
  = fn_params (fn GradioComponentsBlocks.compute_button_click).
Proof.
  split; [intros; reflexivity|].
  split; [intros; reflexivity|].
  split; [intros; reflexivity|].
  split; [intros; reflexivity|].
  split; reflexivity.
Qed.

(* ================================================================== *)
(** ** The score under the constraint of the slider *)

(** What the declared sliders admit: the integers from 1 to 10. *)
Lemma slider_admits_range : forall v : prim,
  (admits GradioComponents.inputs_2 v = true
   <-> exists i, v = PInt i /\ 1 <= i <= 10) /\
  (admits GradioComponentsBlocks.intensity_input v = true
   <-> exists i, v = PInt i /\ 1 <= i <= 10).
Proof.
  intros v. split; (split; [intros H | intros [i [-> Hi]]]).
  1,3: destruct v as [|s|z]; simpl in H; try discriminate;
       exists z; split; [reflexivity|];
       rewrite !andb_true_iff, !Z.leb_le in H; lia.
  all: simpl; rewrite Z.mod_1_r; rewrite !andb_true_iff, !Z.leb_le;
       repeat split; try lia; reflexivity.
Qed.

(** C9: for an intensity that the declared slider admits (an integer [i]
    with [1 <= i <= 10], on the grid of step 1), compute returns, for all
    texts [name] and [stimmung], a score that is a multiple of 10 and lies
    between 10 and 100 inclusive; in both variants. *)
Theorem score_range_under_slider :
  forall (name stimmung : string) (intensitaet : prim) (g : Globals),
    admits GradioComponents.inputs_2 intensitaet = true \/
    admits GradioComponentsBlocks.intensity_input intensitaet = true ->
    exists (message : string) (score : Z),
      GradioComponents.compute (PStr name) (PStr stimmung) intensitaet g
      = (Ok (Tuple [PStr message; PInt score]), g) /\
      GradioComponentsBlocks.compute (PStr name) (PStr stimmung) intensitaet g
      = (Ok (Tuple [PStr message; PInt score]), g) /\
      (10 | score) /\ 10 <= score <= 100.
Proof.
  intros name stimmung intensitaet g H.
  assert (exists i, intensitaet = PInt i /\ 1 <= i <= 10) as [i [-> Hi]].
  { destruct H as [H|H]; apply (slider_admits_range intensitaet) in H; exact H. }
  exists (name ++ " fühlt sich " ++ stimmung), (i * 10).
  rewrite compute_typed, compute_blocks_typed.
  repeat split; try lia.
  exists i. reflexivity.
Qed.

Lemma score_range_under_slider_witness :
  (admits GradioComponents.inputs_2 (PInt 7) = true \/
   admits GradioComponentsBlocks.intensity_input (PInt 7) = true) /\
  exists (message : string) (score : Z),
    GradioComponents.compute (PStr "Anna") (PStr "traurig") (PInt 7) []
    = (Ok (Tuple [PStr message; PInt score]), []) /\
    GradioComponentsBlocks.compute (PStr "Anna") (PStr "traurig") (PInt 7) []
    = (Ok (Tuple [PStr message; PInt score]), []) /\
    (10 | score) /\ 10 <= score <= 100.
Proof.
  split.
  - left. reflexivity.
  - apply (score_range_under_slider "Anna" "traurig" (PInt 7) []).
    left. reflexivity.
Defined.

(* ================================================================== *)
(** ** The shape of the results *)

Lemma greet_result_is_no_tuple :
  exists r : pyval,
    call HelloGradio.greet_def [PStr "World"] [] = (Ok r, []) /\
    r = Prim (PStr "Hallo, World!! 🙂") /\
    is_tuple r = false.
Proof. eexists. repeat split. Qed.

(** C7, as stated, fails: greet is a backend function and its result on
    "World" is the text "Hallo, World!! 🙂" itself, not a tuple. *)
Lemma not_every_result_is_tuple : ~ every_result_is_tuple.
Proof.
  intros H.
  specialize (H HelloGradio.greet_def [PStr "World"] [] []
                (Prim (PStr "Hallo, World!! 🙂"))).
  simpl in H. discriminate H; [left; reflexivity | reflexivity].
Qed.

(** C7, amended: every backend function maps primitive values to primitive
    values.  greet returns, for every text [name], one primitive value, a
    text, and no tuple, and whenever it returns on an argument of another
    type its result is again one text and no tuple; compute returns, for
    all texts [name] and [stimmung] and every integer [intensitaet], a
    tuple of two primitive values, a text and an integer.  Both
    variants. *)
Theorem backend_results_shape :
  (forall (name : string) (g : Globals),
     exists s : string,
       HelloGradio.greet (PStr name) g = (Ok (Prim (PStr s)), g) /\
       HelloGradioBlocks.greet (PStr name) g = (Ok (Prim (PStr s)), g) /\
       is_tuple (Prim (PStr s)) = false) /\
  (forall (name : prim) (g : Globals),
     match HelloGradio.greet name g, HelloGradioBlocks.greet name g with
     | (Ok r, _), (Ok r', _) =>
         (exists s : string, r = Prim (PStr s)) /\ r' = r /\ is_tuple r = false
     | (Raised e, _), (Raised e', _) => e = e'
     | _, _ => False
     end) /\
  (forall (name stimmung : string) (intensitaet : Z) (g : Globals),
     exists (message : string) (score : Z),
       GradioComponents.compute (PStr name) (PStr stimmung) (PInt intensitaet) g
       = (Ok (Tuple [PStr message; PInt score]), g) /\
       GradioComponentsBlocks.compute (PStr name) (PStr stimmung) (PInt intensitaet) g
       = (Ok (Tuple [PStr message; PInt score]), g) /\
       is_tuple (Tuple [PStr message; PInt score]) = true).
Proof.
  split; [|split].
  - intros name g. exists ("Hallo, " ++ name ++ "!! 🙂").
    repeat split.
  - intros name g. cbv [HelloGradio.greet HelloGradioBlocks.greet ret].
    split; [eexists; reflexivity | split; reflexivity].
  - intros name stimmung intensitaet g.
    exists (name ++ " fühlt sich " ++ stimmung), (intensitaet * 10).
    rewrite compute_typed, compute_blocks_typed. repeat split.
Qed.

(* ================================================================== *)
(** ** The arity of the bindings *)

Lemma greet_default_len : forall g : Globals,
  (r <- call (fn HelloGradio.interface) (defaults HelloGradio.interface) ;;
   py_len r) g
  = (Ok 11%nat, g).
Proof. reflexivity. Qed.

(** Whatever the name field holds, [len] of the greeting is at least 11
    and so never the number of output fields, 1. *)
Lemma greet_len_never_one : forall (name : prim) (g : Globals) (n : nat),
  (r <- call (fn HelloGradio.interface) [name] ;; py_len r) g = (Ok n, g) ->
  (11 <= n)%nat.
Proof.
  intros name g n H. cbv [bind call fn HelloGradio.interface arity fn_params
    HelloGradio.greet_def fn_body HelloGradio.greet ret py_len List.length
    Nat.eqb] in H.
  injection H as <-. simpl.
  assert (forall s, py_len_str (s ++ "!! 🙂") = (py_len_str s + 4)%nat) as E.
  { induction s as [|c s IH]; simpl; [reflexivity|].
    destruct (utf8_lead c); rewrite IH; reflexivity. }
  rewrite E. lia.
Qed.

(** C4, as stated, fails: in the greeting bindings there is one output
    field, while the result of greet on the default input is the text
    "Hallo, !! 🙂", whose [len] is 11. *)
Lemma arity_property_fails_for_greet :
  ~ Forall arity_property declared_bindings.
Proof.
  intros H. inversion H as [|b bs [_ Hb] _]; subst.
  specialize (Hb []). rewrite greet_default_len in Hb. discriminate Hb.
Qed.

(** C4, amended: in each of the four declared bindings the number of input
    fields equals the arity of the bound function, and the function
    returns on the default inputs as many values as there are output
    fields, where a returned tuple counts for its elements and a result
    that is no tuple (the text greet returns) for one value.  In the two
    mood bindings, where the result is a tuple, this is
    [len(function( *defaults))]. *)
Theorem declared_bindings_arity :
  Forall arity_property_values declared_bindings /\
  arity_property GradioComponents.interface /\
  arity_property GradioComponentsBlocks.compute_button_click.
Proof.
  split.
  - repeat constructor; intros g; eexists; split; reflexivity.
  - split; split; reflexivity.
Qed.

(* ================================================================== *)
(** ** The order of the fields *)

Lemma write_all_positions : forall cs vs ui i c,
  NoDup cs ->
  List.length vs = List.length cs ->
  nth_error cs i = Some c ->
  nth_error vs i = Some (write_all ui cs vs c).
Proof.
  intros cs vs ui i c ND L Hc.
  destruct (nth_error vs i) as [v|] eqn:Hv.
  - f_equal. symmetry. eapply write_all_nth; eauto.
  - apply nth_error_None in Hv.
    assert (i < List.length cs)%nat by (apply nth_error_Some; congruence).
    lia.
Qed.

Lemma output_fields_distinct : forall b,
  In b declared_bindings -> NoDup (output_fields b).
Proof.
  intros b Hb. simpl in Hb.
  destruct Hb as [<-|[<-|[<-|[<-|[]]]]]; cbn;
    repeat constructor; simpl; intuition discriminate.
Qed.

(** What [fire] does when the call returns as many values as there are
    output fields. *)
Lemma fire_returns : forall b ui g r,
  call (fn b) (map ui (input_fields b)) g = (Ok r, g) ->
  List.length (returned_values r) = List.length (output_fields b) ->
  fire b ui g = (Ok (write_all ui (output_fields b) (returned_values r)), g).
Proof.
  intros b ui g r Hcall L. unfold fire, bind. rewrite Hcall.
  rewrite L, Nat.eqb_refl. reflexivity.
Qed.

(** C6: in every declared binding, when the fields hold values they admit,
    the event calls the bound function on the current values of the input
    fields, the i-th field giving the i-th positional argument, and the
    i-th returned value is written to the i-th output field, all other
    fields keeping their value.  In the mood bindings the name text box,
    the mood dropdown and the intensity slider feed the parameters name,
    stimmung and intensitaet, and the message and the score go to the
    message text box and the score number field; in the greeting bindings
    the name text box feeds name and the greeting goes to the greeting
    text box. *)
Theorem bindings_respect_order :
  forall (b : Binding) (ui : UI) (g : Globals),
    In b declared_bindings ->
    (forall c, In c (input_fields b) -> admits c (ui c) = true) ->
    List.length (input_fields b) = List.length (fn_params (fn b)) /\
    exists (r : pyval) (ui' : UI),
      call (fn b) (map ui (input_fields b)) g = (Ok r, g) /\
      fire b ui g = (Ok ui', g) /\
      (forall i c, nth_error (output_fields b) i = Some c ->
                   nth_error (returned_values r) i = Some (ui' c)) /\
      (forall c, ~ In c (output_fields b) -> ui' c = ui c) /\
      flows_by_position b ui ui'.
Proof.
  intros b ui g Hb Hadm.
  pose proof (output_fields_distinct b Hb) as ND.
  assert (exists r,
             call (fn b) (map ui (input_fields b)) g = (Ok r, g) /\
             List.length (returned_values r) = List.length (output_fields b) /\
             List.length (input_fields b) = List.length (fn_params (fn b)) /\
             flows_by_position b ui
               (write_all ui (output_fields b) (returned_values r)))
    as [r [Hcall [L [La Hflow]]]].
  { simpl in Hb. destruct Hb as [<-|[<-|[<-|[<-|[]]]]].
    - eexists. split; [reflexivity|]. repeat split.
    - eexists. split; [reflexivity|]. repeat split.
    - assert (exists i, ui GradioComponents.inputs_2 = PInt i /\ 1 <= i <= 10)
        as [i [Hi _]].
      { apply (proj1 (proj1 (slider_admits_range _))), Hadm. simpl. auto. }
      exists (Tuple [PStr (py_format (ui GradioComponents.inputs_0)
                           ++ " fühlt sich "
                           ++ py_format (ui GradioComponents.inputs_1));
                     PInt (i * 10)]).
      split.
      { unfold call; cbn -[py_format Z.mul]. rewrite Hi. reflexivity. }
      repeat split. exists i. split; [exact Hi | reflexivity].
    - assert (exists i, ui GradioComponentsBlocks.intensity_input = PInt i
                        /\ 1 <= i <= 10) as [i [Hi _]].
      { apply (proj1 (proj2 (slider_admits_range _))), Hadm. simpl. auto. }
      exists (Tuple [PStr (py_format (ui GradioComponentsBlocks.name_input)
                           ++ " fühlt sich "
                           ++ py_format (ui GradioComponentsBlocks.mood_input));
                     PInt (i * 10)]).
      split.
      { unfold call; cbn -[py_format Z.mul]. rewrite Hi. reflexivity. }
      repeat split. exists i. split; [exact Hi | reflexivity]. }
  split; [exact La|].
  exists r, (write_all ui (output_fields b) (returned_values r)).
  split; [exact Hcall|].
  split; [apply fire_returns; assumption|].
  split; [|split].
  - intros i c Hc. apply write_all_positions; assumption.
  - intros c Hc. apply write_all_outside; assumption.
  - exact Hflow.
Qed.

Lemma bindings_respect_order_witness :
  In GradioComponentsBlocks.compute_button_click declared_bindings /\
  (forall c, In c (input_fields GradioComponentsBlocks.compute_button_click) ->
             admits c (anna_page c) = true) /\
  exists (r : pyval) (ui' : UI),
    call GradioComponentsBlocks.compute_def [PStr "Anna"; PStr "glücklich"; PInt 5] []
    = (Ok r, []) /\
    fire GradioComponentsBlocks.compute_button_click anna_page [] = (Ok ui', []) /\
    ui' GradioComponentsBlocks.message_output = PStr "Anna fühlt sich glücklich" /\
    ui' GradioComponentsBlocks.score_output = PInt 50.
Proof.
  assert (In GradioComponentsBlocks.compute_button_click declared_bindings) as Hin.
  { simpl. auto. }
  assert (forall c,
             In c (input_fields GradioComponentsBlocks.compute_button_click) ->
             admits c (anna_page c) = true) as Hadm.
  { intros c [<-|[<-|[<-|[]]]]; reflexivity. }
  split; [exact Hin|]. split; [exact Hadm|].
  destruct (bindings_respect_order
              GradioComponentsBlocks.compute_button_click anna_page [] Hin Hadm)
    as [_ [r [ui' [Hcall [Hfire [Hpos _]]]]]].
  exists r, ui'. split; [exact Hcall|]. split; [exact Hfire|].
  injection Hcall as <-.
  pose proof (Hpos 0%nat GradioComponentsBlocks.message_output eq_refl) as H0.
  pose proof (Hpos 1%nat GradioComponentsBlocks.score_output eq_refl) as H1.
  simpl in H0, H1. injection H0 as <-. injection H1 as <-.
  split; reflexivity.
Defined.

(* ================================================================== *)
(** ** Texts: concatenation, length, cancellation *)

Lemma append_assoc : forall a b c : string, (a ++ b) ++ c = a ++ (b ++ c).
Proof.
  induction a as [|x a IH]; intros b c; simpl; [reflexivity|].
  rewrite IH. reflexivity.
Qed.

Lemma append_empty_r : forall a : string, a ++ "" = a.
Proof.
  induction a as [|x a IH]; simpl; [reflexivity | rewrite IH; reflexivity].
Qed.

Lemma append_length : forall a b : string,
  String.length (a ++ b) = (String.length a + String.length b)%nat.
Proof.
  induction a as [|x a IH]; intros b; simpl; [reflexivity|].
  rewrite IH. reflexivity.
Qed.

Lemma py_len_str_app : forall a b : string,
  py_len_str (a ++ b) = (py_len_str a + py_len_str b)%nat.
Proof.
  induction a as [|x a IH]; intros b; simpl; [reflexivity|].
  destruct (utf8_lead x); rewrite IH; reflexivity.
Qed.

Lemma py_len_str_repeat : forall (s : string) (n : nat),
  py_len_str (str_repeat s n) = (n * py_len_str s)%nat.
Proof.
  induction n as [|n IH]; simpl; [reflexivity|].
  rewrite py_len_str_app, IH. reflexivity.
Qed.

Lemma append_inv_head : forall x a b : string, x ++ a = x ++ b -> a = b.
Proof.
  induction x as [|c x IH]; intros a b H; simpl in H; [exact H|].
  injection H as H. apply IH. exact H.
Qed.

Lemma append_inv_tail : forall a b x : string, a ++ x = b ++ x -> a = b.
Proof.
  induction a as [|c a IH]; intros b x H.
  - destruct b as [|d b]; [reflexivity|].
    apply (f_equal String.length) in H. simpl in H.
    rewrite append_length in H. lia.
  - destruct b as [|d b].
    + apply (f_equal String.length) in H. simpl in H.
      rewrite append_length in H. lia.
    + simpl in H. injection H as -> H. f_equal. eapply IH. exact H.
Qed.

Lemma last_byte_app : forall (a : string) (c : ascii) (b : string),
  last_byte (a ++ String c b) = last_byte (String c b).
Proof.
  induction a as [|x a IH]; intros c b; [reflexivity|].
  change (String x a ++ String c b) with (String x (a ++ String c b)).
  cbn [last_byte]. rewrite IH.
  destruct (a ++ String c b) eqn:E; [|reflexivity].
  destruct a; discriminate E.
Qed.

(* ================================================================== *)
(** ** More on greet *)

(** X1: on a text greet never raises, and the greeting has 11 code points
    more than the name: [len(greet(name)) = len(name) + 11]. *)
Theorem greet_length : forall (name : string) (g : Globals),
  exists s : string,
    HelloGradio.greet (PStr name) g = (Ok (Prim (PStr s)), g) /\
    HelloGradioBlocks.greet (PStr name) g = (Ok (Prim (PStr s)), g) /\
    py_len_str s = (py_len_str name + 11)%nat /\
    py_len (Prim (PStr s)) g = (Ok (py_len_str name + 11)%nat, g).
Proof.
  intros name g. exists ("Hallo, " ++ name ++ "!! 🙂").
  assert (py_len_str ("Hallo, " ++ name ++ "!! 🙂")
          = (py_len_str name + 11)%nat) as E.
  { rewrite !py_len_str_app.
    change (py_len_str "Hallo, ") with 7%nat.
    change (py_len_str "!! 🙂") with 4%nat. lia. }
  repeat split; try exact E.
  unfold py_len, ret. rewrite E. reflexivity.
Qed.

(** X2: the greeting determines the name: two texts with the same greeting
    are the same text. *)
Theorem greet_injective : forall (a b : string) (g : Globals),
  HelloGradio.greet (PStr a) g = HelloGradio.greet (PStr b) g \/
  HelloGradioBlocks.greet (PStr a) g = HelloGradioBlocks.greet (PStr b) g ->
  a = b.
Proof.
  intros a b g H.
  assert (a ++ "!! 🙂" = b ++ "!! 🙂") as E.
  { destruct H as [H|H]; injection H as H; exact H. }
  apply append_inv_tail in E. exact E.
Qed.

Lemma greet_injective_witness :
  (HelloGradio.greet (PStr "Anna") [] = HelloGradio.greet (PStr "Anna") [] \/
   HelloGradioBlocks.greet (PStr "Anna") [] = HelloGradioBlocks.greet (PStr "Anna") [])
  /\ "Anna" = "Anna".
Proof.
  split.
  - left. reflexivity.
  - apply (greet_injective "Anna" "Anna" []). left. reflexivity.
Defined.

(* ================================================================== *)
(** ** More on compute *)

(** What compute does on each type of intensity. *)
Lemma compute_cases : forall (name stimmung intensitaet : prim) (g : Globals),
  GradioComponents.compute name stimmung intensitaet g
  = match intensitaet with
    | PNone => (Raised TypeError, g)
    | PStr t =>
        (Ok (Tuple [PStr (py_format name ++ " fühlt sich " ++ py_format stimmung);
                    PStr (str_repeat t 10)]), g)
    | PInt i =>
        (Ok (Tuple [PStr (py_format name ++ " fühlt sich " ++ py_format stimmung);
                    PInt (i * 10)]), g)
    end.
Proof. intros name stimmung [|t|i] g; reflexivity. Qed.

Lemma compute_blocks_cases : forall (name stimmung intensitaet : prim) (g : Globals),
  GradioComponentsBlocks.compute name stimmung intensitaet g
  = match intensitaet with
    | PNone => (Raised TypeError, g)
    | PStr t =>
        (Ok (Tuple [PStr (py_format name ++ " fühlt sich " ++ py_format stimmung);
                    PStr (str_repeat t 10)]), g)
    | PInt i =>
        (Ok (Tuple [PStr (py_format name ++ " fühlt sich " ++ py_format stimmung);
                    PInt (i * 10)]), g)
    end.
Proof. intros name stimmung [|t|i] g; reflexivity. Qed.

(** X3: missing inputs.  Without an intensity ([None]) compute raises
    [TypeError], for every text [name] and a mood that is a text or
    missing, and leaves the namespace as it was.  Without a mood ([None],
    the dropdown with no selection) it does not raise: the message ends
    in "fühlt sich None". *)
Theorem compute_missing_inputs :
  forall (name stimmung : string) (i : Z) (g : Globals),
    GradioComponents.compute (PStr name) (PStr stimmung) PNone g
    = (Raised TypeError, g) /\
    GradioComponents.compute (PStr name) PNone PNone g
    = (Raised TypeError, g) /\
    GradioComponents.compute (PStr name) PNone (PInt i) g
    = (Ok (Tuple [PStr (name ++ " fühlt sich None"); PInt (i * 10)]), g) /\
    GradioComponentsBlocks.compute (PStr name) (PStr stimmung) PNone g
    = (Raised TypeError, g) /\
    GradioComponentsBlocks.compute (PStr name) PNone PNone g
    = (Raised TypeError, g) /\
    GradioComponentsBlocks.compute (PStr name) PNone (PInt i) g
    = (Ok (Tuple [PStr (name ++ " fühlt sich None"); PInt (i * 10)]), g).
Proof.
  intros name stimmung i g.
  rewrite ?compute_blocks_cases, ?compute_cases. repeat split.
Qed.

(** X4: when the intensity arrives as a text, compute does not raise: for
    all texts [name] and [stimmung] the score is the intensity text
    repeated ten times, a text of ten times its length. *)
Theorem compute_text_intensity :
  forall (name stimmung t : string) (g : Globals),
    GradioComponents.compute (PStr name) (PStr stimmung) (PStr t) g
    = (Ok (Tuple [PStr (name ++ " fühlt sich " ++ stimmung);
                  PStr (t ++ t ++ t ++ t ++ t ++ t ++ t ++ t ++ t ++ t)]), g) /\
    GradioComponentsBlocks.compute (PStr name) (PStr stimmung) (PStr t) g
    = GradioComponents.compute (PStr name) (PStr stimmung) (PStr t) g /\
    py_len_str (t ++ t ++ t ++ t ++ t ++ t ++ t ++ t ++ t ++ t)
    = (10 * py_len_str t)%nat.
Proof.
  intros name stimmung t g.
  assert (str_repeat t 10 = t ++ t ++ t ++ t ++ t ++ t ++ t ++ t ++ t ++ t) as E.
  { simpl. rewrite append_empty_r. reflexivity. }
  rewrite <- E. repeat split. apply py_len_str_repeat.
Qed.

(** X5: the score determines the intensity and keeps its order: for all
    texts [name] and [stimmung] and integers [i] and [j], the score of
    [i] divided by 10 is [i] with remainder 0, the scores of [i] and [j]
    are ordered as [i] and [j] are, and they are equal only if [i = j]. *)
Theorem score_recovers_intensity :
  forall (name stimmung : string) (i j : Z) (g : Globals),
    exists (message : string) (si sj : Z),
      GradioComponents.compute (PStr name) (PStr stimmung) (PInt i) g
      = (Ok (Tuple [PStr message; PInt si]), g) /\
      GradioComponents.compute (PStr name) (PStr stimmung) (PInt j) g
      = (Ok (Tuple [PStr message; PInt sj]), g) /\
      si / 10 = i /\ si mod 10 = 0 /\
      (i < j <-> si < sj) /\ (i = j <-> si = sj) /\ (0 <= i <-> 0 <= si).
Proof.
  intros name stimmung i j g.
  exists (name ++ " fühlt sich " ++ stimmung), (i * 10), (j * 10).
  rewrite !compute_typed.
  repeat split; try lia.
  - apply Z.div_mul. lia.
  - apply Z.mod_mul. lia.
Qed.

(** X6: for all texts [name] and [stimmung] the message has 12 code points
    more than the name and the mood together:
    [len(message) = len(name) + 12 + len(stimmung)]. *)
Theorem message_length :
  forall (name stimmung : string) (i : Z) (g : Globals),
    exists message : string,
      GradioComponents.compute (PStr name) (PStr stimmung) (PInt i) g
      = (Ok (Tuple [PStr message; PInt (i * 10)]), g) /\
      GradioComponentsBlocks.compute (PStr name) (PStr stimmung) (PInt i) g
      = (Ok (Tuple [PStr message; PInt (i * 10)]), g) /\
      py_len_str message
      = (py_len_str name + 12 + py_len_str stimmung)%nat.
Proof.
  intros name stimmung i g.
  exists (name ++ " fühlt sich " ++ stimmung).
  repeat split.
  rewrite !py_len_str_app.
  change (py_len_str " fühlt sich ") with 12%nat. lia.
Qed.

(** X7: on the moods the dropdown offers, the result of compute determines
    its arguments: two calls with moods among the declared choices, any
    names and any integer intensities, return the same pair only if the
    names, the moods and the intensities are the same. *)
Theorem compute_injective_on_choices :
  forall (dropdown : Component) (name name' stimmung stimmung' : string)
         (i i' : Z) (g : Globals),
    In dropdown [GradioComponents.inputs_1; GradioComponentsBlocks.mood_input] ->
    In stimmung (dropdown_choices dropdown) ->
    In stimmung' (dropdown_choices dropdown) ->
    GradioComponents.compute (PStr name) (PStr stimmung) (PInt i) g
    = GradioComponents.compute (PStr name') (PStr stimmung') (PInt i') g \/
    GradioComponentsBlocks.compute (PStr name) (PStr stimmung) (PInt i) g
    = GradioComponentsBlocks.compute (PStr name') (PStr stimmung') (PInt i') g ->
    name = name' /\ stimmung = stimmung' /\ i = i'.
Proof.
  intros dropdown name name' s s' i i' g Hd Hs Hs' H.
  assert (name ++ " fühlt sich " ++ s = name' ++ " fühlt sich " ++ s'
          /\ i * 10 = i' * 10) as [Hm Hi].
  { destruct H as [H|H];
      [rewrite !compute_typed in H | rewrite !compute_blocks_typed in H];
      injection H as H1 H2; split; assumption. }
  assert (In s ["glücklich"; "traurig"; "aufgeregt"] /\
          In s' ["glücklich"; "traurig"; "aufgeregt"]) as [Cs Cs'].
  { destruct Hd as [<-|[<-|[]]]; split; assumption. }
  clear Hd Hs Hs' H.
  assert (s = s') as <-.
  { simpl in Cs, Cs'.
    destruct Cs as [<-|[<-|[<-|[]]]]; destruct Cs' as [<-|[<-|[<-|[]]]];
      try reflexivity;
      apply (f_equal last_byte) in Hm; simpl in Hm;
      rewrite !last_byte_app in Hm; discriminate Hm. }
  split; [|split; [reflexivity | lia]].
  eapply append_inv_tail. exact Hm.
Qed.

Lemma compute_injective_on_choices_witness :
  In GradioComponents.inputs_1
     [GradioComponents.inputs_1; GradioComponentsBlocks.mood_input] /\
  In "traurig" (dropdown_choices GradioComponents.inputs_1) /\
  (GradioComponents.compute (PStr "Anna") (PStr "traurig") (PInt 3) []
   = GradioComponents.compute (PStr "Anna") (PStr "traurig") (PInt 3) [] \/
   GradioComponentsBlocks.compute (PStr "Anna") (PStr "traurig") (PInt 3) []
   = GradioComponentsBlocks.compute (PStr "Anna") (PStr "traurig") (PInt 3) []) /\
  "Anna" = "Anna" /\ "traurig" = "traurig" /\ 3 = 3.
Proof.
  assert (In GradioComponents.inputs_1
             [GradioComponents.inputs_1; GradioComponentsBlocks.mood_input]) as Hd.
  { left. reflexivity. }
  assert (In "traurig" (dropdown_choices GradioComponents.inputs_1)) as Hs.
  { right. left. reflexivity. }
  split; [exact Hd|]. split; [exact Hs|].
  split; [left; reflexivity|].
  apply (compute_injective_on_choices GradioComponents.inputs_1
           "Anna" "Anna" "traurig" "traurig" 3 3 [] Hd Hs Hs).
  left. reflexivity.
Defined.

(** X8: on free texts the message does not determine the name and the
    mood: moving " fühlt sich " and what precedes it from the mood into
    the name gives the same result for different arguments. *)
Theorem message_is_ambiguous :
  forall (a b c : string) (intensitaet : prim) (g : Globals),
    GradioComponents.compute (PStr (a ++ " fühlt sich " ++ b)) (PStr c) intensitaet g
    = GradioComponents.compute (PStr a) (PStr (b ++ " fühlt sich " ++ c)) intensitaet g
    /\
    GradioComponentsBlocks.compute (PStr (a ++ " fühlt sich " ++ b)) (PStr c) intensitaet g
    = GradioComponentsBlocks.compute (PStr a) (PStr (b ++ " fühlt sich " ++ c)) intensitaet g
    /\
    PStr c <> PStr (b ++ " fühlt sich " ++ c).
Proof.
  intros a b c intensitaet g.
  rewrite ?compute_blocks_cases, ?compute_cases. cbn [py_format].
  assert ((a ++ " fühlt sich " ++ b) ++ " fühlt sich " ++ c
          = a ++ " fühlt sich " ++ b ++ " fühlt sich " ++ c) as E.
  { rewrite append_assoc. reflexivity. }
  rewrite E. repeat split.
  intros H. injection H as H.
  apply (f_equal String.length) in H.
  rewrite !append_length in H. simpl in H. lia.
Qed.

(** X9: the two outputs are computed from separate inputs: the message
    depends on the name and the mood alone, not on the intensity, and the
    score on the intensity alone, not on the name or the mood, for
    arguments of any type on which compute returns. *)
Theorem outputs_are_independent :
  forall (name stimmung intensitaet name' stimmung' intensitaet' : prim)
         (g : Globals) (message score message' score' : prim),
    GradioComponents.compute name stimmung intensitaet g
    = (Ok (Tuple [message; score]), g) ->
    GradioComponents.compute name' stimmung' intensitaet' g
    = (Ok (Tuple [message'; score']), g) ->
    (name = name' -> stimmung = stimmung' -> message = message') /\
    (intensitaet = intensitaet' -> score = score').
Proof.
  intros n s i n' s' i' g m sc m' sc' H H'.
  rewrite compute_cases in H, H'.
  destruct i as [|t|z]; try discriminate H;
    destruct i' as [|t'|z']; try discriminate H';
    injection H as <- <-; injection H' as <- <-;
    (split; [intros -> ->; reflexivity | intros E; congruence]).
Qed.

Lemma outputs_are_independent_witness :
  GradioComponents.compute (PStr "Anna") (PStr "traurig") (PInt 3) []
  = (Ok (Tuple [PStr "Anna fühlt sich traurig"; PInt 30]), []) /\
  GradioComponents.compute (PStr "Anna") (PStr "traurig") (PInt 8) []
  = (Ok (Tuple [PStr "Anna fühlt sich traurig"; PInt 80]), []) /\
  (PStr "Anna" = PStr "Anna" -> PStr "traurig" = PStr "traurig" ->
   PStr "Anna fühlt sich traurig" = PStr "Anna fühlt sich traurig") /\
  (PInt 3 = PInt 8 -> PInt 30 = PInt 80).
Proof.
  split; [reflexivity|]. split; [reflexivity|].
  apply (outputs_are_independent
           (PStr "Anna") (PStr "traurig") (PInt 3)
           (PStr "Anna") (PStr "traurig") (PInt 8) []
           (PStr "Anna fühlt sich traurig") (PInt 30)
           (PStr "Anna fühlt sich traurig") (PInt 80)); reflexivity.
Defined.

(* ================================================================== *)
(** ** Events of the declared bindings *)

Lemma fire_greet : forall (ui : UI) (g : Globals),
  fire HelloGradio.interface ui g
  = (Ok (write_all ui (output_fields HelloGradio.interface)
           [PStr ("Hallo, "
                  ++ py_format (ui (Textbox "Name eingeben" None)) ++ "!! 🙂")]), g)
  /\
  fire HelloGradioBlocks.greet_button_click ui g
  = (Ok (write_all ui (output_fields HelloGradioBlocks.greet_button_click)
           [PStr ("Hallo, "
                  ++ py_format (ui HelloGradioBlocks.name_input) ++ "!! 🙂")]), g).
Proof. intros ui g. split; reflexivity. Qed.

Lemma fire_compute : forall (ui : UI) (g : Globals),
  fire GradioComponents.interface ui g
  = match ui GradioComponents.inputs_2 with
    | PNone => (Raised TypeError, g)
    | PStr t =>
        (Ok (write_all ui (output_fields GradioComponents.interface)
               [PStr (py_format (ui GradioComponents.inputs_0) ++ " fühlt sich "
                      ++ py_format (ui GradioComponents.inputs_1));
                PStr (str_repeat t 10)]), g)
    | PInt i =>
        (Ok (write_all ui (output_fields GradioComponents.interface)
               [PStr (py_format (ui GradioComponents.inputs_0) ++ " fühlt sich "
                      ++ py_format (ui GradioComponents.inputs_1));
                PInt (i * 10)]), g)
    end.
Proof.
  intros ui g. unfold fire, bind, call.
  cbn -[py_format Z.mul str_repeat write_all GradioComponents.compute].
  rewrite compute_cases.
  destruct (ui GradioComponents.inputs_2); reflexivity.
Qed.

Lemma fire_compute_blocks : forall (ui : UI) (g : Globals),
  fire GradioComponentsBlocks.compute_button_click ui g
  = match ui GradioComponentsBlocks.intensity_input with
    | PNone => (Raised TypeError, g)
    | PStr t =>
        (Ok (write_all ui (output_fields GradioComponentsBlocks.compute_button_click)
               [PStr (py_format (ui GradioComponentsBlocks.name_input)
                      ++ " fühlt sich "
                      ++ py_format (ui GradioComponentsBlocks.mood_input));
                PStr (str_repeat t 10)]), g)
    | PInt i =>
        (Ok (write_all ui (output_fields GradioComponentsBlocks.compute_button_click)
               [PStr (py_format (ui GradioComponentsBlocks.name_input)
                      ++ " fühlt sich "
                      ++ py_format (ui GradioComponentsBlocks.mood_input));
                PInt (i * 10)]), g)
    end.
Proof.
  intros ui g. unfold fire, bind, call.
  cbn -[py_format Z.mul str_repeat write_all GradioComponentsBlocks.compute].
  rewrite compute_blocks_cases.
  destruct (ui GradioComponentsBlocks.intensity_input); reflexivity.
Qed.

Lemma fire_inv : forall b ui g ui' g',
  fire b ui g = (Ok ui', g') ->
  exists r,
    call (fn b) (map ui (input_fields b)) g = (Ok r, g') /\
    List.length (returned_values r) = List.length (output_fields b) /\
    ui' = write_all ui (output_fields b) (returned_values r).
Proof.
  intros b ui g ui' g' H. unfold fire, bind in H.
  destruct (call (fn b) (map ui (input_fields b)) g) as [[r|e] g1];
    [|discriminate H].
  destruct (Nat.eqb (List.length (returned_values r))
                    (List.length (output_fields b))) eqn:L;
    [|discriminate H].
  unfold ret in H. injection H as <- <-.
  exists r. apply Nat.eqb_eq in L. auto.
Qed.

Lemma In_Component_dec : forall (c : Component) (cs : list Component),
  In c cs \/ ~ In c cs.
Proof.
  intros c cs. destruct (existsb (Component_eqb c) cs) eqn:E.
  - left. apply existsb_exists in E. destruct E as [x [Hx Hc]].
    apply Component_eqb_eq in Hc. subst. exact Hx.
  - right. intros H.
    assert (existsb (Component_eqb c) cs = true) as E'.
    { apply existsb_exists. exists c. split; [exact H|].
      apply Component_eqb_refl. }
    congruence.
Qed.

(** Writing the same values to the same distinct fields again changes
    nothing. *)
Lemma write_all_again : forall cs vs ui c,
  NoDup cs ->
  List.length vs = List.length cs ->
  write_all (write_all ui cs vs) cs vs c = write_all ui cs vs c.
Proof.
  intros cs vs ui c ND L.
  destruct (In_Component_dec c cs) as [H|H].
  - apply In_nth_error in H. destruct H as [i Hi].
    pose proof (write_all_positions cs vs ui i c ND L Hi) as H1.
    pose proof (write_all_positions cs vs (write_all ui cs vs) i c ND L Hi) as H2.
    congruence.
  - rewrite !write_all_outside by assumption. reflexivity.
Qed.

(** No field of a declared binding is read and written by its event. *)
Lemma inputs_are_no_outputs : forall b c,
  In b declared_bindings -> In c (input_fields b) -> ~ In c (output_fields b).
Proof.
  intros b c Hb Hc. simpl in Hb.
  destruct Hb as [<-|[<-|[<-|[<-|[]]]]]; cbn in Hc |- *;
    intuition (subst; discriminate).
Qed.

(** X11: an event of a declared binding leaves the input fields as they
    are, so it can be repeated: when it succeeds, running it again on the
    page it produced succeeds and changes no field. *)
Theorem events_are_idempotent :
  forall (b : Binding) (ui ui' : UI) (g : Globals),
    In b declared_bindings ->
    fire b ui g = (Ok ui', g) ->
    (forall c, In c (input_fields b) -> ui' c = ui c) /\
    exists ui'' : UI,
      fire b ui' g = (Ok ui'', g) /\ forall c, ui'' c = ui' c.
Proof.
  intros b ui ui' g Hb H.
  destruct (fire_inv _ _ _ _ _ H) as [r [Hcall [L ->]]].
  assert (forall c, In c (input_fields b) ->
                    write_all ui (output_fields b) (returned_values r) c = ui c)
    as Hin.
  { intros c Hc. apply write_all_outside.
    apply inputs_are_no_outputs; assumption. }
  split; [exact Hin|].
  exists (write_all (write_all ui (output_fields b) (returned_values r))
            (output_fields b) (returned_values r)).
  split.
  - apply fire_returns; [|exact L].
    rewrite (map_ext_in _ ui); [exact Hcall | exact Hin].
  - intros c. apply write_all_again; [|exact L].
    apply output_fields_distinct. exact Hb.
Qed.

Lemma events_are_idempotent_witness :
  In GradioComponentsBlocks.compute_button_click declared_bindings /\
  exists ui' : UI,
    fire GradioComponentsBlocks.compute_button_click anna_page [] = (Ok ui', []) /\
    (forall c, In c (input_fields GradioComponentsBlocks.compute_button_click) ->
               ui' c = anna_page c) /\
    exists ui'' : UI,
      fire GradioComponentsBlocks.compute_button_click ui' [] = (Ok ui'', []) /\
      forall c, ui'' c = ui' c.
Proof.
  assert (In GradioComponentsBlocks.compute_button_click declared_bindings) as Hb.
  { simpl. auto. }
  split; [exact Hb|].
  eexists. split; [reflexivity|].
  apply (events_are_idempotent
           GradioComponentsBlocks.compute_button_click anna_page _ [] Hb).
  reflexivity.
Defined.

(** X12: the two variants of a demo behave alike as pages, not only as
    functions: when the input fields of the Interface page and of the
    Blocks page hold the same values, position by position, the two events
    raise the same exception or write the same values to their output
    fields, position by position. *)
Theorem variants_same_event :
  forall (bi bb : Binding) (ui ub : UI) (g : Globals),
    In (bi, bb) variant_pairs ->
    map ui (input_fields bi) = map ub (input_fields bb) ->
    same_outcome bi bb (fire bi ui g) (fire bb ub g).
Proof.
  intros bi bb ui ub g Hp Hm. simpl in Hp.
  destruct Hp as [E|[E|[]]]; injection E as <- <-.
  - destruct (fire_greet ui g) as [-> _].
    destruct (fire_greet ub g) as [_ ->].
    cbn in Hm. injection Hm as Hm.
    unfold HelloGradioBlocks.name_input in *. rewrite <- Hm. reflexivity.
  - rewrite fire_compute, fire_compute_blocks.
    cbn in Hm. injection Hm as H0 H1 H2.
    unfold GradioComponentsBlocks.name_input, GradioComponentsBlocks.mood_input,
      GradioComponentsBlocks.intensity_input, GradioComponents.inputs_0,
      GradioComponents.inputs_1, GradioComponents.inputs_2 in *.
    rewrite <- H0, <- H1, <- H2.
    destruct (ui (Slider 1 10 None 1 "Intensität der Stimmung"));
      reflexivity.
Qed.

Lemma variants_same_event_witness :
  In (GradioComponents.interface, GradioComponentsBlocks.compute_button_click)
     variant_pairs /\
  map anna_page (input_fields GradioComponents.interface)
  = map anna_page (input_fields GradioComponentsBlocks.compute_button_click) /\
  same_outcome GradioComponents.interface
    GradioComponentsBlocks.compute_button_click
    (fire GradioComponents.interface anna_page [])
    (fire GradioComponentsBlocks.compute_button_click anna_page []).
Proof.
  assert (In (GradioComponents.interface,
              GradioComponentsBlocks.compute_button_click) variant_pairs) as Hp.
  { right. left. reflexivity. }
  split; [exact Hp|]. split; [reflexivity|].
  apply (variants_same_event _ _ anna_page anna_page [] Hp). reflexivity.
Defined.
